(** * minitorch.operators: scalar prelude and list combinators

    A shallow embedding of [minitorch/operators.py].

    In [operators] scalars are the real numbers of the Standard Library:
    the module's arithmetic is read over the reals it approximates.  The
    range of binary64 is kept where Python raises on leaving it
    ([math.exp] and [**] raise [OverflowError]); rounding is not, and an
    operation that overflows silently to an infinity ([+], [*], [/])
    keeps its real value.  In [binary64] the logistic function is read
    again over binary64 itself, with the kernel's floating-point numbers,
    to evaluate it where rounding decides the result.

    A Python exception is a value of [pyexc]; a function that can raise
    lives in the error monad [py] (ExtLib's [sum pyexc]: [inl e] is
    "raised [e]", [inr v] is "returned [v]"). *)

From Stdlib Require Import Reals Lra List PrimFloat.
From ExtLib Require Import Structures.Monad Structures.MonadExc.
From ExtLib Require Import Data.Monads.EitherMonad.
Import ListNotations.
Import MonadNotation.

Local Open Scope monad_scope.
Local Open Scope R_scope.

Module operators.

(** ** Python values and exceptions *)

(** The exceptions the module's arithmetic can raise: [1 / 0] raises
    [ZeroDivisionError], [math.log] of a non-positive argument raises
    [ValueError] ("math domain error"), [math.exp] and [**] raise
    [OverflowError] when their result leaves the range of binary64. *)
Inductive pyexc : Set :=
| ZeroDivisionError
| ValueError
| OverflowError.

Definition py : Type -> Type := sum pyexc.

(** What a comparison or an arithmetic expression evaluates to: Python
    keeps [bool] and [float] apart ([True] is not [1.0], although
    [True == 1.0]). *)
Inductive pyval : Type :=
| PyBool (b : bool)
| PyFloat (r : R).

(** The number a value stands for in arithmetic ([True] counts as 1). *)
Definition as_float (v : pyval) : R :=
  match v with
  | PyBool true => 1
  | PyBool false => 0
  | PyFloat r => r
  end.

(** Python's comparison operators on scalars. *)
Definition Rltb (x y : R) : bool := if Rlt_dec x y then true else false.
Definition Reqb (x y : R) : bool := if Req_dec_T x y then true else false.
Definition Rgtb (x y : R) : bool := if Rgt_dec x y then true else false.
Definition Rgeb (x y : R) : bool := if Rge_dec x y then true else false.

(** [x / y]: true division, raising on a zero divisor. *)
Definition truediv (x y : R) : py R :=
  if Req_dec_T y 0 then raise ZeroDivisionError else ret (x / y).

(** [math.log]: natural logarithm, a domain error outside [(0, +oo)]. *)
Definition math_log (x : R) : py R :=
  if Rlt_dec 0 x then ret (ln x) else raise ValueError.

(** The bound of binary64: the largest number is [2^1024 - 2^971], and
    a real of magnitude [2^1024 - 2^970] or more rounds to an infinity. *)
Definition float_overflow : R := IZR (Z.pow 2 1024 - Z.pow 2 970).

(** A real within the range of binary64. *)
Definition finite (x : R) : bool := Rltb (Rabs x) float_overflow.

(** [math.exp]: [OverflowError] ("math range error") when the result is
    out of range. *)
Definition math_exp (x : R) : py R :=
  if finite (exp x) then ret (exp x) else raise OverflowError.

(** [x ** n] on a float [x]: [OverflowError] when the power of a number
    in range is out of range. *)
Definition float_pow (x : R) (n : nat) : py R :=
  if (finite x && negb (finite (x ^ n)))%bool then raise OverflowError
  else ret (x ^ n).

(** ** Task 0.1: elementary functions *)

Definition mul (x y : R) : R := x * y.

Definition id (x : R) : R := x.

Definition add (x y : R) : R := x + y.

Definition neg (x : R) : R := - x.

(** [return x < y]: the result of the comparison itself. *)
Definition lt (x y : R) : pyval := PyBool (Rltb x y).

(** [return x == y]. *)
Definition eq (x y : R) : pyval := PyBool (Reqb x y).

(** [return x if x > y else y]. *)
Definition max (x y : R) : R := if Rgtb x y then x else y.

(** [return abs(x - y) < 1e-2]. *)
Definition is_close (x y : R) : pyval := PyBool (Rltb (Rabs (x - y)) 1e-2).

(** [if x >= 0: return 1/(1 + math.exp(neg(x)))]
    [else: return math.exp(x) / (1 + math.exp(x))]. *)
Definition sigmoid (x : R) : py R :=
  if Rgeb x 0
  then e <- math_exp (neg x) ;; truediv 1 (1 + e)
  else e1 <- math_exp x ;; e2 <- math_exp x ;; truediv e1 (1 + e2).

Definition relu (x : R) : R := max x 0.

Definition EPS : R := 1e-6.

(** [return math.log(x + EPS)]. *)
Definition log (x : R) : py R := math_log (x + EPS).

Definition exp (x : R) : py R := math_exp x.

(** [return 1 / x]. *)
Definition inv (x : R) : py R := truediv 1 x.

(** [return inv(x) * d]. *)
Definition log_back (x d : R) : py R :=
  i <- inv x ;;
  ret (i * d).

(** [return neg(inv(x) ** 2) * d]. *)
Definition inv_back (x d : R) : py R :=
  i <- inv x ;;
  p <- float_pow i 2 ;;
  ret (neg p * d).

(** [return d if x > 0 else 0]. *)
Definition relu_back (x d : R) : R := if Rgtb x 0 then d else 0.

(** ** Task 0.3: higher-order functions *)

(** A function of the scalar layer used as a callback: it returns, it
    never raises. *)
Definition pure1 {A B : Type} (f : A -> B) : A -> py B :=
  fun x => ret (f x).
Definition pure2 {A B C : Type} (f : A -> B -> C) : A -> B -> py C :=
  fun x y => ret (f x y).

(** [for x in ls: body], threading the loop's local state; an exception
    raised by the body leaves the loop. *)
Fixpoint for_in {S X : Type} (ls : list X) (body : S -> X -> py S) (s : S)
  : py S :=
  match ls with
  | [] => ret s
  | x :: tl => s' <- body s x ;; for_in tl body s'
  end.

(** The builtin [zip] of two iterables: it stops at the end of the
    shorter one. *)
Fixpoint zip {A B : Type} (l1 : list A) (l2 : list B) : list (A * B) :=
  match l1, l2 with
  | x :: t1, y :: t2 => (x, y) :: zip t1 t2
  | _, _ => []
  end.

Section Combinators.
Context {A B C : Type}.

(** [ret = []; for x in ls: ret.append(fn(x)); return ret]. *)
Definition map (fn : A -> py B) (ls : list A) : py (list B) :=
  for_in ls (fun out x => v <- fn x ;; ret (out ++ [v])) [].

(** [ret = []; for x, y in zip(l1, l2): ret.append(fn(x, y)); return ret]. *)
Definition zipWith (fn : A -> B -> py C) (l1 : list A) (l2 : list B)
  : py (list C) :=
  for_in (zip l1 l2)
         (fun out xy => v <- fn (fst xy) (snd xy) ;; ret (out ++ [v])) [].

(** [ori = start; for w in ls: ori = fn(w, ori); return ori]. *)
Definition reduce (fn : A -> B -> py B) (start : B) (ls : list A) : py B :=
  for_in ls (fun ori w => fn w ori) start.
End Combinators.

Definition negList (ls : list R) : py (list R) := map (pure1 neg) ls.

Definition addLists (ls1 ls2 : list R) : py (list R) :=
  zipWith (pure2 add) ls1 ls2.

Definition sum (ls : list R) : py R := reduce (pure2 add) 0 ls.

Definition prod (ls : list R) : py R := reduce (pure2 mul) 1 ls.

End operators.

(** ** The logistic function over binary64 *)

Module binary64.

Section Libm.
(** The C library's [exp], which [math.exp] calls. *)
Variable libm_exp : float -> float.

(** What every binary64 [exp] returns at the two ends: above 710 the
    exponential is beyond the largest number and the result is the
    infinity, below -750 it is far below the smallest positive number
    and the result is 0; in between the value is the library's. *)
Definition c_exp (x : float) : float :=
  if (710 <? x)%float then infinity
  else if (x <? -750)%float then 0%float
  else libm_exp x.

(** [math.exp]: an infinite result on a finite argument is reported as
    [OverflowError]; a result that underflowed to 0 is returned. *)
Definition math_exp (x : float) : operators.py float :=
  let r := c_exp x in
  if (is_infinity r && is_finite x)%bool then raise operators.OverflowError
  else ret r.

(** [x / y]. *)
Definition truediv (x y : float) : operators.py float :=
  if (y =? 0)%float then raise operators.ZeroDivisionError
  else ret (x / y)%float.

Definition neg (x : float) : float := (- x)%float.

(** [if x >= 0: return 1/(1 + math.exp(neg(x)))]
    [else: return math.exp(x) / (1 + math.exp(x))]. *)
Definition sigmoid (x : float) : operators.py float :=
  if (0 <=? x)%float
  then e <- math_exp (neg x) ;; truediv 1 (1 + e)%float
  else e1 <- math_exp x ;; e2 <- math_exp x ;; truediv e1 (1 + e2)%float.
End Libm.

End binary64.

(** ** The symmetry test of the logistic function *)

(** [is_close(sigmoid(x) + sigmoid(-x), 1.0)]: both calls are made, then
    the comparison. *)
Definition sigmoid_symmetry_test (x : R) : operators.py operators.pyval :=
  a <- operators.sigmoid x ;;
  b <- operators.sigmoid (- x) ;;
  ret (operators.is_close (a + b) 1).

(** ** Reading a call as a real function *)

(** The number a call returned, for the calculus of the [*_back]
    functions; a call that raised reads as 0, a value no statement below
    looks at. *)
Definition returned (c : operators.py R) : R :=
  match c with
  | inr v => v
  | inl _ => 0
  end.

(** * Properties *)

(** ** The loop and the combinators *)

Section Loops.
Context {S X : Type}.
Implicit Types (body : S -> X -> operators.py S) (ls : list X) (s : S).

(** Running a loop over a concatenation is running it over the first
    part, then over the second from the state reached (or raising what
    the first part raised). *)
Lemma for_in_app body ls1 ls2 s :
  operators.for_in (ls1 ++ ls2) body s =
  match operators.for_in ls1 body s with
  | inl e => inl e
  | inr s' => operators.for_in ls2 body s'
  end.
Proof.
  revert s; induction ls1 as [| x tl IH]; intros s; simpl.
  - reflexivity.
  - destruct (body s x) as [e | s']; simpl; [reflexivity | apply IH].
Qed.

(** A body that never raises makes the loop a left fold. *)
Lemma for_in_pure (g : S -> X -> S) ls s :
  operators.for_in ls (fun s x => inr (g s x)) s = inr (fold_left g ls s).
Proof.
  revert s; induction ls as [| x tl IH]; intros s; simpl; [reflexivity | apply IH].
Qed.

(** The first exception raised by the body is the loop's. *)
Lemma for_in_raise body ls1 x ls2 s s' e :
  operators.for_in ls1 body s = inr s' ->
  body s' x = inl e ->
  operators.for_in (ls1 ++ x :: ls2) body s = inl e.
Proof.
  intros H1 H2. rewrite for_in_app, H1. simpl. rewrite H2. reflexivity.
Qed.
End Loops.

Section ZipFacts.
Context {A B : Type}.

Lemma zip_combine (l1 : list A) (l2 : list B) :
  operators.zip l1 l2 = combine l1 l2.
Proof.
  revert l2; induction l1 as [| x t1 IH]; intros [| y t2]; simpl;
    try reflexivity.
  now rewrite IH.
Qed.

Lemma zip_length (l1 : list A) (l2 : list B) :
  length (operators.zip l1 l2) = Nat.min (length l1) (length l2).
Proof. rewrite zip_combine. apply length_combine. Qed.

Lemma zip_nth_error (l1 : list A) (l2 : list B) i x y :
  nth_error l1 i = Some x -> nth_error l2 i = Some y ->
  nth_error (operators.zip l1 l2) i = Some (x, y).
Proof.
  revert l2 i; induction l1 as [| a t1 IH]; intros [| b t2] [| i]; simpl;
    try discriminate.
  - now intros [= ->] [= ->].
  - apply IH.
Qed.

Lemma zip_nth_error_inv (l1 : list A) (l2 : list B) i x y :
  nth_error (operators.zip l1 l2) i = Some (x, y) ->
  nth_error l1 i = Some x /\ nth_error l2 i = Some y.
Proof.
  revert l2 i; induction l1 as [| a t1 IH]; intros [| b t2] [| i]; simpl;
    try discriminate.
  - intros [= -> ->]. auto.
  - apply IH.
Qed.
End ZipFacts.

Section PureCallbacks.
Context {A B C : Type}.

(** The appending loop of [map] and [zipWith], for a callback that
    returns: the output so far, followed by the images in order. *)
Lemma append_loop_pure {X Y : Type} (g : X -> Y) (ls : list X) (out : list Y) :
  operators.for_in ls (fun out x => v <- inr (g x) ;; ret (out ++ [v])) out
  = inr (out ++ List.map g ls).
Proof.
  revert out; induction ls as [| x tl IH]; intros out; simpl.
  - now rewrite app_nil_r.
  - rewrite IH, <- app_assoc. reflexivity.
Qed.

Lemma map_pure (f : A -> B) (ls : list A) :
  operators.map (operators.pure1 f) ls = inr (List.map f ls).
Proof. unfold operators.map, operators.pure1. apply (append_loop_pure f). Qed.

Lemma zipWith_pure (f : A -> B -> C) (l1 : list A) (l2 : list B) :
  operators.zipWith (operators.pure2 f) l1 l2
  = inr (List.map (fun xy => f (fst xy) (snd xy)) (operators.zip l1 l2)).
Proof.
  unfold operators.zipWith, operators.pure2.
  apply (append_loop_pure (fun xy => f (fst xy) (snd xy))).
Qed.

Lemma reduce_pure_fold_left (f : A -> B -> B) (start : B) (ls : list A) :
  operators.reduce (operators.pure2 f) start ls
  = inr (fold_left (fun ori w => f w ori) ls start).
Proof.
  unfold operators.reduce, operators.pure2.
  apply (for_in_pure (fun ori w => f w ori)).
Qed.

(** One more element at the end is one more call, with the value
    reduced so far as second argument; this holds for callbacks that
    may raise as well. *)
Lemma reduce_snoc (fn : A -> B -> operators.py B) (start : B) (ls : list A) (x : A) :
  operators.reduce fn start (ls ++ [x]) =
  match operators.reduce fn start ls with
  | inl e => inl e
  | inr acc => fn x acc
  end.
Proof.
  unfold operators.reduce. rewrite for_in_app.
  destruct (operators.for_in ls _ start) as [e | acc]; simpl; [reflexivity |].
  destruct (fn x acc); reflexivity.
Qed.
End PureCallbacks.

(** ** reduce, sum and prod *)

(** C1: [reduce(fn, s0)] applied to [[x1,...,xn]] returns
    [fn(xn, fn(x(n-1), ... fn(x1, s0)))], the right fold of [fn] over the
    reversed sequence: elements are taken first to last and the
    accumulator is the second argument of [fn].  On two elements the
    result is [fn(x2, fn(x1, s0))]; with subtraction, start 10 and
    [[1, 2]] it is [2 - (1 - 10) = 11]. *)
Theorem reduce_fold_order {A B : Type} (fn : A -> B -> B) (s0 : B) (ls : list A) :
  operators.reduce (operators.pure2 fn) s0 ls = inr (fold_right fn s0 (rev ls))
  /\ (forall x, operators.reduce (operators.pure2 fn) s0 (ls ++ [x])
                = inr (fn x (fold_right fn s0 (rev ls))))
  /\ (forall x1 x2 : A,
        operators.reduce (operators.pure2 fn) s0 [x1; x2] = inr (fn x2 (fn x1 s0)))
  /\ operators.reduce (operators.pure2 Rminus) 10 [1; 2] = inr (2 - (1 - 10))
  /\ 2 - (1 - 10) = 11.
Proof.
  assert (Hfold : forall l,
             operators.reduce (operators.pure2 fn) s0 l = inr (fold_right fn s0 (rev l))).
  { intros l. rewrite reduce_pure_fold_left, fold_left_rev_right. reflexivity. }
  split; [apply Hfold |].
  split; [intros x; rewrite reduce_snoc, Hfold; reflexivity |].
  split; [reflexivity |].
  split; [reflexivity | lra].
Qed.

(** The sum of a list, as mathematics writes it. *)
Lemma sum_fold_right (ls : list R) :
  operators.sum ls = inr (fold_right Rplus 0 ls).
Proof.
  unfold operators.sum. rewrite reduce_pure_fold_left. f_equal.
  enough (H : forall acc,
             fold_left (fun ori w => operators.add w ori) ls acc
             = acc + fold_right Rplus 0 ls)
    by (rewrite H; lra).
  induction ls as [| x tl IH]; intros acc; simpl.
  - lra.
  - rewrite IH. unfold operators.add. lra.
Qed.

(** C9: on the empty sequence [reduce(fn, start)] returns [start], for
    every [fn] (raising or not) and every [start]; so [sum([])] is 0 and
    [prod([])] is 1; and [sum] is [reduce(add, 0)], [prod] is
    [reduce(mul, 1)] on every sequence. *)
Theorem reduce_empty_sum_prod :
  (forall (A B : Type) (fn : A -> B -> operators.py B) (start : B),
      operators.reduce fn start [] = inr start)
  /\ operators.sum [] = inr 0
  /\ operators.prod [] = inr 1
  /\ (forall s : list R,
        operators.sum s = operators.reduce (operators.pure2 operators.add) 0 s)
  /\ (forall s : list R,
        operators.prod s = operators.reduce (operators.pure2 operators.mul) 1 s).
Proof. repeat split. Qed.

(** ** zipWith and addLists *)

(** C2: for a callback that returns, [zipWith(fn)(a, b)] returns (it does
    not raise, whatever the two lengths are) a sequence as long as the
    shorter of [a] and [b] whose element at each position [i] is
    [fn(a[i], b[i])]; [zipWith(add)([1,2,3], [10,20])] is [[11, 22]]. *)
Theorem zipWith_shorter {A B C : Type} (fn : A -> B -> C) (a : list A) (b : list B) :
  (exists out : list C,
      operators.zipWith (operators.pure2 fn) a b = inr out
      /\ length out = Nat.min (length a) (length b)
      /\ (forall i x y, nth_error a i = Some x -> nth_error b i = Some y ->
                        nth_error out i = Some (fn x y))
      /\ (forall i z, nth_error out i = Some z ->
                      exists x y, nth_error a i = Some x /\ nth_error b i = Some y
                                  /\ z = fn x y))
  /\ operators.zipWith (operators.pure2 operators.add) [1; 2; 3] [10; 20]
     = inr [1 + 10; 2 + 20]
  /\ operators.addLists [1; 2; 3] [10; 20] = inr [1 + 10; 2 + 20]
  /\ [1 + 10; 2 + 20] = [11; 22].
Proof.
  split; [| repeat split; repeat f_equal; lra].
  exists (List.map (fun xy => fn (fst xy) (snd xy)) (operators.zip a b)).
  split; [apply zipWith_pure |].
  split; [now rewrite length_map, zip_length |].
  split.
  - intros i x y Ha Hb.
    rewrite nth_error_map, (zip_nth_error a b i x y Ha Hb). reflexivity.
  - intros i z. rewrite nth_error_map.
    destruct (nth_error (operators.zip a b) i) as [[x y] |] eqn:E; simpl;
      [| discriminate].
    intros [= <-]. exists x, y.
    destruct (zip_nth_error_inv a b i x y E). auto.
Qed.

Lemma zipWith_shorter_witness :
  exists out : list R,
    operators.zipWith (operators.pure2 operators.add) [1; 2; 3] [10; 20] = inr out
    /\ length out = 2%nat
    /\ nth_error out 1 = Some (operators.add 2 20).
Proof.
  destruct (zipWith_shorter operators.add [1; 2; 3] [10; 20])
    as [(out & Hout & Hlen & Hnth & _) _].
  exists out. split; [exact Hout |]. split; [exact Hlen |].
  apply (Hnth 1%nat 2 20); reflexivity.
Defined.

(** ** Division and the inverse *)

Lemma truediv_ok (x y : R) : y <> 0 -> operators.truediv x y = inr (x / y).
Proof.
  intros Hy. unfold operators.truediv.
  destruct (Req_dec_T y 0) as [E | _]; [contradiction | reflexivity].
Qed.

Lemma truediv_zero (x : R) : operators.truediv x 0 = inl operators.ZeroDivisionError.
Proof.
  unfold operators.truediv.
  destruct (Req_dec_T 0 0) as [_ | N]; [reflexivity | contradiction N; reflexivity].
Qed.

Lemma truediv_raises (x y : R) (e : operators.pyexc) :
  operators.truediv x y = inl e <-> y = 0 /\ e = operators.ZeroDivisionError.
Proof.
  split.
  - unfold operators.truediv.
    destruct (Req_dec_T y 0) as [E | N]; simpl; [| discriminate].
    intros [= <-]. auto.
  - intros [-> ->]. apply truediv_zero.
Qed.

Lemma EPS_pos : 0 < operators.EPS.
Proof. unfold operators.EPS. lra. Qed.

Ltac scalar_unfold :=
  unfold operators.log_back, operators.inv_back, operators.inv,
    operators.neg in *.

(** ** The range of binary64 *)

Lemma float_overflow_bounds : 1e308 < operators.float_overflow < 1e309.
Proof.
  unfold operators.float_overflow.
  let z := eval vm_compute in (Z.pow 2 1024 - Z.pow 2 970)%Z in
  change (Z.pow 2 1024 - Z.pow 2 970)%Z with z.
  split; lra.
Qed.

Lemma finite_true (x : R) :
  Rabs x < operators.float_overflow -> operators.finite x = true.
Proof.
  intros H. unfold operators.finite, operators.Rltb.
  destruct (Rlt_dec (Rabs x) operators.float_overflow); [reflexivity | contradiction].
Qed.

Lemma finite_false (x : R) :
  operators.float_overflow <= Rabs x -> operators.finite x = false.
Proof.
  intros H. unfold operators.finite, operators.Rltb.
  destruct (Rlt_dec (Rabs x) operators.float_overflow); [lra | reflexivity].
Qed.

Lemma float_pow_ok (x : R) (n : nat) :
  Rabs (x ^ n) < operators.float_overflow ->
  operators.float_pow x n = inr (x ^ n).
Proof.
  intros H. unfold operators.float_pow. rewrite (finite_true (x ^ n) H).
  now destruct (operators.finite x).
Qed.

Lemma float_pow_overflow (x : R) (n : nat) :
  Rabs x < operators.float_overflow ->
  operators.float_overflow <= Rabs (x ^ n) ->
  operators.float_pow x n = inl operators.OverflowError.
Proof.
  intros Hx Hp. unfold operators.float_pow.
  now rewrite (finite_true x Hx), (finite_false (x ^ n) Hp).
Qed.

Lemma float_pow_cases (x : R) (n : nat) :
  operators.float_pow x n = inr (x ^ n)
  \/ operators.float_pow x n = inl operators.OverflowError.
Proof.
  unfold operators.float_pow.
  destruct (operators.finite x && negb (operators.finite (x ^ n)))%bool; auto.
Qed.

(** ** Division and the inverse, continued *)

Lemma inv_back_in_range (x d : R) :
  x <> 0 -> (1 / x) ^ 2 < operators.float_overflow ->
  operators.inv_back x d = inr (d * (- 1 / (x * x))).
Proof.
  intros N Hr. scalar_unfold. rewrite (truediv_ok 1 x N). simpl.
  rewrite float_pow_ok.
  - simpl. f_equal. field. exact N.
  - rewrite Rabs_pos_eq; [exact Hr | apply pow2_ge_0].
Qed.

Lemma inv_back_out_of_range (x d : R) :
  x <> 0 -> Rabs (1 / x) < operators.float_overflow ->
  operators.float_overflow <= (1 / x) ^ 2 ->
  operators.inv_back x d = inl operators.OverflowError.
Proof.
  intros N Hx Hr. scalar_unfold. rewrite (truediv_ok 1 x N). simpl.
  rewrite float_pow_overflow; [reflexivity | exact Hx |].
  rewrite Rabs_pos_eq; [exact Hr | apply pow2_ge_0].
Qed.

Lemma small_inverse_square :
  1e-200 <> 0
  /\ Rabs (1 / 1e-200) < operators.float_overflow
  /\ operators.float_overflow <= (1 / 1e-200) ^ 2.
Proof.
  pose proof float_overflow_bounds as Hb.
  assert (E : 1 / 1e-200 = 1e200) by lra.
  rewrite E.
  split; [apply Rgt_not_eq; lra |].
  split.
  - rewrite Rabs_pos_eq by lra. lra.
  - simpl. lra.
Qed.

(** C7, as the code has it: [inv(x)] raises [ZeroDivisionError] exactly
    when [x = 0] and otherwise returns [1/x]; [inv_back(x, d)] raises
    [ZeroDivisionError] exactly when [x = 0]; for [x <> 0] it returns
    [d * (-1/x^2)] when the square of [1/x] is within the range of
    binary64, and raises [OverflowError] when [1/x] is within the range
    and its square is not. *)
Theorem inv_inv_back_zero (x d : R) :
  (operators.inv x = inl operators.ZeroDivisionError <-> x = 0)
  /\ (x <> 0 -> operators.inv x = inr (1 / x))
  /\ (operators.inv_back x d = inl operators.ZeroDivisionError <-> x = 0)
  /\ (x <> 0 -> (1 / x) ^ 2 < operators.float_overflow ->
      operators.inv_back x d = inr (d * (- 1 / (x * x))))
  /\ (x <> 0 -> Rabs (1 / x) < operators.float_overflow ->
      operators.float_overflow <= (1 / x) ^ 2 ->
      operators.inv_back x d = inl operators.OverflowError).
Proof.
  split; [| split; [| split; [| split]]].
  - unfold operators.inv. split.
    + intros H. apply truediv_raises in H. tauto.
    + intros ->. apply truediv_zero.
  - intros N. unfold operators.inv. now apply truediv_ok.
  - split.
    + intros H. destruct (Req_dec_T x 0) as [E | N]; [exact E | exfalso].
      revert H. scalar_unfold. rewrite (truediv_ok 1 x N). simpl.
      destruct (float_pow_cases (1 / x) 2) as [-> | ->]; simpl; discriminate.
    + intros ->. scalar_unfold. now rewrite truediv_zero.
  - apply inv_back_in_range.
  - apply inv_back_out_of_range.
Qed.

Lemma inv_inv_back_zero_witness :
  operators.inv 2 = inr (1 / 2)
  /\ operators.inv_back 2 3 = inr (3 * (- 1 / (2 * 2)))
  /\ operators.inv 0 = inl operators.ZeroDivisionError
  /\ operators.inv_back 0 3 = inl operators.ZeroDivisionError
  /\ operators.inv_back 1e-200 3 = inl operators.OverflowError.
Proof.
  pose proof float_overflow_bounds as Hb.
  split; [apply (inv_inv_back_zero 2 3); lra |].
  split; [apply (inv_inv_back_zero 2 3); [lra | simpl; lra] |].
  split; [apply (inv_inv_back_zero 0 3); reflexivity |].
  split; [apply (inv_inv_back_zero 0 3); reflexivity |].
  apply (inv_inv_back_zero 1e-200 3); apply small_inverse_square.
Defined.

(** C7 as stated fails: [1e-200] is not 0, yet [inv_back(1e-200, 1)]
    does not return: the square of [inv(1e-200) = 1e200] is out of
    range and [**] raises [OverflowError]. *)
Lemma inv_back_overflow_error :
  1e-200 <> 0
  /\ operators.inv 1e-200 = inr (1 / 1e-200)
  /\ operators.inv_back 1e-200 1 = inl operators.OverflowError.
Proof.
  destruct small_inverse_square as (N & Hx & Hr).
  split; [exact N |].
  split; [unfold operators.inv; now apply truediv_ok |].
  now apply inv_back_out_of_range.
Qed.

(** ** log and log_back *)

(** C5: for [x <> 0], [log_back(x, d)] returns [(1/x) * d]: the inverse
    of [x] itself, which for [d <> 0] differs from [(1/(x + EPS)) * d]. *)
Theorem log_back_literal (x d : R) :
  x <> 0 ->
  operators.log_back x d = inr (1 / x * d)
  /\ (d <> 0 -> x + operators.EPS <> 0 ->
      operators.log_back x d <> inr (1 / (x + operators.EPS) * d)).
Proof.
  intros N. scalar_unfold. rewrite (truediv_ok 1 x N). simpl.
  split; [reflexivity |].
  intros Hd He [= H].
  pose proof EPS_pos as Hpos.
  apply Rmult_eq_reg_r in H; [| exact Hd].
  assert (Hx : x = x + operators.EPS).
  { apply (f_equal (fun t => t * x * (x + operators.EPS))) in H.
    field_simplify in H; [lra | exact He | exact N]. }
  lra.
Qed.

Lemma log_back_literal_witness :
  operators.log_back 2 3 = inr (1 / 2 * 3)
  /\ operators.log_back 2 3 <> inr (1 / (2 + operators.EPS) * 3).
Proof.
  assert (N : (2 : R) <> 0) by lra.
  destruct (log_back_literal 2 3 N) as [H1 H2].
  split; [exact H1 |].
  apply H2; [lra | pose proof EPS_pos; lra].
Defined.

(** C4, as the code has it: [log_back] never calls the logarithm.  For
    [x <= -EPS] it does not fail and returns [(1/x) * d]; it fails only
    at [x = 0], and then with [ZeroDivisionError]. *)
Theorem log_back_below_minus_eps (x d : R) :
  (x <= - operators.EPS -> operators.log_back x d = inr (1 / x * d))
  /\ (forall e, operators.log_back x d = inl e <->
                x = 0 /\ e = operators.ZeroDivisionError).
Proof.
  pose proof EPS_pos as Hpos.
  scalar_unfold. split.
  - intros Hx. rewrite truediv_ok by lra. reflexivity.
  - intros e. destruct (Req_dec_T x 0) as [-> | N].
    + rewrite truediv_zero. simpl. split.
      * intros [= <-]. auto.
      * intros [_ ->]. reflexivity.
    + rewrite (truediv_ok 1 x N). simpl. split; [discriminate | tauto].
Qed.

Lemma log_back_below_minus_eps_witness :
  operators.log_back (-1) 5 = inr (1 / -1 * 5).
Proof.
  apply (log_back_below_minus_eps (-1) 5).
  unfold operators.EPS. lra.
Defined.

(** C4 as stated fails: [-1 <= -EPS], yet [log_back(-1, 1)] returns [-1]
    and raises nothing. *)
Lemma log_back_no_domain_error :
  -1 <= - operators.EPS
  /\ operators.log_back (-1) 1 = inr (-1)
  /\ (forall e, operators.log_back (-1) 1 <> inl e).
Proof.
  assert (N : -1 <> 0) by lra.
  assert (H : operators.log_back (-1) 1 = inr (-1)).
  { scalar_unfold. rewrite (truediv_ok 1 (-1) N). simpl. f_equal. field. }
  split; [unfold operators.EPS; lra |].
  split; [exact H |].
  intros e. rewrite H. discriminate.
Qed.

(** *** The value of [log(0)]

    [exp] is bounded from below by repeated squaring of the tangent
    bound [1 + y <= exp y] at [y = x / 2^20]; each squaring is rounded
    down to 16 decimal places. *)

Lemma exp_lower_half (x a b : R) :
  0 <= a -> a <= Rtrigo_def.exp (x / 2) -> b <= a * a -> b <= Rtrigo_def.exp x.
Proof.
  intros Ha Hle Hb.
  replace x with (x / 2 + x / 2) by lra.
  rewrite exp_plus.
  apply Rle_trans with (a * a); [exact Hb |].
  apply Rmult_le_compat; assumption.
Qed.

Lemma exp_minus_13815 : 1e-6 < Rtrigo_def.exp (-13.815).
Proof.
  apply Rlt_le_trans with (10004196387 / 10000000000000000); [lra |].
  apply (exp_lower_half _ (10002097973528 / 10000000000000000)); [lra | | lra].
  apply (exp_lower_half _ (316260936151284 / 10000000000000000)); [lra | | lra].
  apply (exp_lower_half _ (1778372672280150 / 10000000000000000)); [lra | | lra].
  apply (exp_lower_half _ (4217075612649304 / 10000000000000000)); [lra | | lra].
  apply (exp_lower_half _ (6493901456481538 / 10000000000000000)); [lra | | lra].
  apply (exp_lower_half _ (8058474704608521 / 10000000000000000)); [lra | | lra].
  apply (exp_lower_half _ (8976900748369964 / 10000000000000000)); [lra | | lra].
  apply (exp_lower_half _ (9474650784261109 / 10000000000000000)); [lra | | lra].
  apply (exp_lower_half _ (9733781785236974 / 10000000000000000)); [lra | | lra].
  apply (exp_lower_half _ (9865992998799956 / 10000000000000000)); [lra | | lra].
  apply (exp_lower_half _ (9932770509178170 / 10000000000000000)); [lra | | lra].
  apply (exp_lower_half _ (9966328566316771 / 10000000000000000)); [lra | | lra].
  apply (exp_lower_half _ (9983150087180284 / 10000000000000000)); [lra | | lra].
  apply (exp_lower_half _ (9991571491602452 / 10000000000000000)); [lra | | lra].
  apply (exp_lower_half _ (9995784857429882 / 10000000000000000)); [lra | | lra].
  apply (exp_lower_half _ (9997892206575285 / 10000000000000000)); [lra | | lra].
  apply (exp_lower_half _ (9998946047746875 / 10000000000000000)); [lra | | lra].
  apply (exp_lower_half _ (9999473009987514 / 10000000000000000)); [lra | | lra].
  apply (exp_lower_half _ (9999736501522185 / 10000000000000000)); [lra | | lra].
  apply (exp_lower_half _ (9999868249893188 / 10000000000000000)); [lra | | lra].
  eapply Rle_trans; [| apply exp_ineq1_le]. lra.
Qed.
Lemma exp_13816 : 1000000 < Rtrigo_def.exp 13.816.
Proof.
  apply Rlt_le_trans with (10003985025180789918602 / 10000000000000000); [lra |].
  apply (exp_lower_half _ (10001992314124616402 / 10000000000000000)); [lra | | lra].
  apply (exp_lower_half _ (316259265700226029 / 10000000000000000)); [lra | | lra].
  apply (exp_lower_half _ (56236933211211476 / 10000000000000000)); [lra | | lra].
  apply (exp_lower_half _ (23714327570313158 / 10000000000000000)); [lra | | lra].
  apply (exp_lower_half _ (15399456993775189 / 10000000000000000)); [lra | | lra].
  apply (exp_lower_half _ (12409454860619458 / 10000000000000000)); [lra | | lra].
  apply (exp_lower_half _ (11139773274451980 / 10000000000000000)); [lra | | lra].
  apply (exp_lower_half _ (10554512435187132 / 10000000000000000)); [lra | | lra].
  apply (exp_lower_half _ (10273515676333556 / 10000000000000000)); [lra | | lra].
  apply (exp_lower_half _ (10135835277042320 / 10000000000000000)); [lra | | lra].
  apply (exp_lower_half _ (10067688551520811 / 10000000000000000)); [lra | | lra].
  apply (exp_lower_half _ (10033787197026261 / 10000000000000000)); [lra | | lra].
  apply (exp_lower_half _ (10016879352885439 / 10000000000000000)); [lra | | lra].
  apply (exp_lower_half _ (10008436118038342 / 10000000000000000)); [lra | | lra].
  apply (exp_lower_half _ (10004217169793118 / 10000000000000000)); [lra | | lra].
  apply (exp_lower_half _ (10002108362636909 / 10000000000000000)); [lra | | lra].
  apply (exp_lower_half _ (10001054125759399 / 10000000000000000)); [lra | | lra].
  apply (exp_lower_half _ (10000527048990668 / 10000000000000000)); [lra | | lra].
  apply (exp_lower_half _ (10000263521023168 / 10000000000000000)); [lra | | lra].
  apply (exp_lower_half _ (10000131759643554 / 10000000000000000)); [lra | | lra].
  eapply Rle_trans; [| apply exp_ineq1_le]. lra.
Qed.

Lemma ln_EPS_bounds : -13.816 < ln 1e-6 < -13.815.
Proof.
  split.
  - rewrite <- (ln_exp (-13.816)). apply ln_increasing; [apply exp_pos |].
    replace (Rtrigo_def.exp (-13.816)) with (/ Rtrigo_def.exp 13.816)
      by (rewrite <- exp_Ropp; f_equal; lra).
    replace 1e-6 with (/ 1000000) by lra.
    apply Rinv_lt_contravar; [| exact exp_13816].
    apply Rmult_lt_0_compat; [lra | apply exp_pos].
  - rewrite <- (ln_exp (-13.815)). apply ln_increasing; [lra |].
    exact exp_minus_13815.
Qed.

(** C3: [log(x)] returns [ln(x + 1e-6)] when [x + 1e-6 > 0] and raises
    the domain error ([ValueError]) exactly when [x + 1e-6 <= 0]; so
    [log(0)] returns [ln(1e-6)], which lies between -13.816 and -13.815,
    and [log(-1)] raises the domain error. *)
Theorem log_domain (x : R) :
  (0 < x + 1e-6 -> operators.log x = inr (ln (x + 1e-6)))
  /\ (operators.log x = inl operators.ValueError <-> x + 1e-6 <= 0)
  /\ operators.log 0 = inr (ln 1e-6)
  /\ -13.816 < ln 1e-6 < -13.815
  /\ operators.log (-1) = inl operators.ValueError.
Proof.
  assert (Hlog : forall t, (0 < t + 1e-6 -> operators.log t = inr (ln (t + 1e-6)))
                           /\ (t + 1e-6 <= 0 -> operators.log t = inl operators.ValueError)).
  { intros t. unfold operators.log, operators.math_log, operators.EPS.
    destruct (Rlt_dec 0 (t + 1e-6)) as [P | N]; simpl; split; intros; auto; lra. }
  split; [apply Hlog |].
  split.
  { split; [| apply Hlog].
    destruct (Rlt_dec 0 (x + 1e-6)) as [P | N]; [| lra].
    rewrite (proj1 (Hlog x) P). discriminate. }
  split.
  { rewrite (proj1 (Hlog 0)) by lra. do 2 f_equal. lra. }
  split; [exact ln_EPS_bounds |].
  apply Hlog. lra.
Qed.

Lemma log_domain_witness :
  operators.log 1 = inr (ln (1 + 1e-6))
  /\ operators.log (-2) = inl operators.ValueError.
Proof.
  split.
  - apply (log_domain 1). lra.
  - apply (log_domain (-2)). lra.
Defined.

(** ** Comparisons *)

Lemma Rltb_true (x y : R) : x < y -> operators.Rltb x y = true.
Proof. intros H. unfold operators.Rltb. destruct (Rlt_dec x y); [reflexivity | contradiction]. Qed.

Lemma Rltb_false (x y : R) : ~ x < y -> operators.Rltb x y = false.
Proof. intros H. unfold operators.Rltb. destruct (Rlt_dec x y); [contradiction | reflexivity]. Qed.

Lemma Reqb_true (x y : R) : x = y -> operators.Reqb x y = true.
Proof. intros H. unfold operators.Reqb. destruct (Req_dec_T x y); [reflexivity | contradiction]. Qed.

Lemma Reqb_false (x y : R) : x <> y -> operators.Reqb x y = false.
Proof. intros H. unfold operators.Reqb. destruct (Req_dec_T x y); [contradiction | reflexivity]. Qed.

(** What [lt] and [eq] return is a [bool], whose number is 1 or 0. *)
Lemma lt_eq_as_float (x y : R) :
  (x < y -> operators.lt x y = operators.PyBool true
            /\ operators.as_float (operators.lt x y) = 1)
  /\ (~ x < y -> operators.lt x y = operators.PyBool false
                 /\ operators.as_float (operators.lt x y) = 0)
  /\ (x = y -> operators.eq x y = operators.PyBool true
               /\ operators.as_float (operators.eq x y) = 1)
  /\ (x <> y -> operators.eq x y = operators.PyBool false
                /\ operators.as_float (operators.eq x y) = 0).
Proof.
  unfold operators.lt, operators.eq.
  split; [intros H; rewrite (Rltb_true _ _ H); split; reflexivity |].
  split; [intros H; rewrite (Rltb_false _ _ H); split; reflexivity |].
  split; [intros H; rewrite (Reqb_true _ _ H); split; reflexivity |].
  intros H; rewrite (Reqb_false _ _ H); split; reflexivity.
Qed.

(** C6, at [lt(1.0, 2.0)] and [eq(1.0, 1.0)]: the code returns the
    boolean [True], not the float [1.0] of the docstrings; and the
    boolean [False], not the float [0.0], at [lt(2.0, 1.0)] and
    [eq(1.0, 2.0)]. *)
Theorem lt_eq_return_bool :
  operators.lt 1 2 = operators.PyBool true
  /\ operators.lt 1 2 <> operators.PyFloat 1
  /\ operators.lt 2 1 = operators.PyBool false
  /\ operators.lt 2 1 <> operators.PyFloat 0
  /\ operators.eq 1 1 = operators.PyBool true
  /\ operators.eq 1 1 <> operators.PyFloat 1
  /\ operators.eq 1 2 = operators.PyBool false
  /\ operators.eq 1 2 <> operators.PyFloat 0.
Proof.
  unfold operators.lt, operators.eq.
  rewrite (Rltb_true 1 2), (Rltb_false 2 1), (Reqb_true 1 1), (Reqb_false 1 2)
    by lra.
  repeat split; discriminate.
Qed.

(** ** sigmoid *)

(** On a non-positive argument [math.exp] is at most 1 and does not
    raise. *)
Lemma math_exp_nonpos (x : R) :
  x <= 0 -> operators.math_exp x = inr (Rtrigo_def.exp x).
Proof.
  intros Hx. unfold operators.math_exp.
  rewrite finite_true; [reflexivity |].
  pose proof (exp_pos x) as Hp. pose proof float_overflow_bounds as Hb.
  rewrite Rabs_pos_eq by lra.
  apply Rle_lt_trans with 1; [| lra].
  destruct Hx as [Hx | ->]; [| rewrite exp_0; lra].
  left. rewrite <- exp_0. now apply exp_increasing.
Qed.

Lemma sigmoid_nonneg (x : R) :
  0 <= x -> operators.sigmoid x = inr (1 / (1 + Rtrigo_def.exp (- x))).
Proof.
  intros Hx. unfold operators.sigmoid, operators.Rgeb.
  destruct (Rge_dec x 0) as [_ | N]; [| lra].
  scalar_unfold. rewrite math_exp_nonpos by lra. simpl. apply truediv_ok.
  pose proof (exp_pos (- x)). lra.
Qed.

Lemma sigmoid_negative (x : R) :
  x < 0 -> operators.sigmoid x = inr (Rtrigo_def.exp x / (1 + Rtrigo_def.exp x)).
Proof.
  intros Hx. unfold operators.sigmoid, operators.Rgeb.
  destruct (Rge_dec x 0) as [P | _]; [lra |].
  rewrite math_exp_nonpos by lra. simpl. apply truediv_ok.
  pose proof (exp_pos x). lra.
Qed.

(** Both branches compute the logistic function [1 / (1 + e^(-x))]. *)
Lemma sigmoid_logistic (x : R) :
  operators.sigmoid x = inr (1 / (1 + Rtrigo_def.exp (- x))).
Proof.
  destruct (Rle_or_lt 0 x) as [P | N]; [now apply sigmoid_nonneg |].
  rewrite (sigmoid_negative x N). f_equal.
  rewrite exp_Ropp. pose proof (exp_pos x). field. lra.
Qed.

(** Over binary64 the two ends are reached, whatever the C library
    computes in between: [sigmoid(1000.0)] is exactly [1.0] and
    [sigmoid(-1000.0)] exactly [0.0]. *)
Lemma binary64_sigmoid_saturates (libm : float -> float) :
  binary64.sigmoid libm 1000 = inr 1%float
  /\ binary64.sigmoid libm (-1000) = inr 0%float.
Proof. split; reflexivity. Qed.

(** C10, as the code has it: [sigmoid(x)] returns, and what it returns
    lies between 0 and 1, bounds included, for every [x] (so in both
    branches).  The bounds are reached in binary64: [sigmoid(1000.0)] is
    exactly [1.0] and [sigmoid(-1000.0)] exactly [0.0]. *)
Theorem sigmoid_range (x : R) :
  (exists v : R, operators.sigmoid x = inr v /\ 0 <= v <= 1)
  /\ (forall libm, binary64.sigmoid libm 1000 = inr 1%float)
  /\ (forall libm, binary64.sigmoid libm (-1000) = inr 0%float).
Proof.
  split; [| split; intros libm; apply binary64_sigmoid_saturates].
  exists (1 / (1 + Rtrigo_def.exp (- x))).
  split; [apply sigmoid_logistic |].
  pose proof (exp_pos (- x)) as He.
  split.
  - left. apply Rdiv_lt_0_compat; lra.
  - left. apply (Rmult_lt_reg_r (1 + Rtrigo_def.exp (- x))); [lra |].
    unfold Rdiv. rewrite Rmult_assoc, Rinv_l by lra. lra.
Qed.

(** C10 as stated fails: [sigmoid(1000.0)] returns [1.0], which is not
    below 1, and [sigmoid(-1000.0)] returns [0.0], which is not above
    0. *)
Lemma sigmoid_reaches_bounds :
  (forall libm, binary64.sigmoid libm 1000 = inr 1%float)
  /\ (1 <? 1)%float = false
  /\ (forall libm, binary64.sigmoid libm (-1000) = inr 0%float)
  /\ (0 <? 0)%float = false.
Proof.
  split; [intros libm; apply binary64_sigmoid_saturates |].
  split; [reflexivity |].
  split; [intros libm; apply binary64_sigmoid_saturates | reflexivity].
Qed.

(** C8: for every [x], [sigmoid(x)] and [sigmoid(-x)] return values whose
    sum is within 0.01 of 1 (it is 1), so that
    [is_close(sigmoid(x) + sigmoid(-x), 1.0)] is [True]; [sigmoid]
    computes [1/(1 + e^(-x))] for [x >= 0] and [e^x/(1 + e^x)] for
    [x < 0]. *)
Theorem sigmoid_symmetry (x : R) :
  (exists a b : R,
      operators.sigmoid x = inr a /\ operators.sigmoid (- x) = inr b
      /\ Rabs (a + b - 1) < 1e-2
      /\ operators.is_close (a + b) 1 = operators.PyBool true)
  /\ sigmoid_symmetry_test x = inr (operators.PyBool true)
  /\ (x >= 0 -> operators.sigmoid x = inr (1 / (1 + Rtrigo_def.exp (- x))))
  /\ (x < 0 -> operators.sigmoid x = inr (Rtrigo_def.exp x / (1 + Rtrigo_def.exp x))).
Proof.
  pose proof (exp_pos x) as Hp. pose proof (exp_pos (- x)) as Hn.
  assert (Hsum : 1 / (1 + Rtrigo_def.exp (- x)) + 1 / (1 + Rtrigo_def.exp (- - x)) = 1).
  { rewrite Ropp_involutive, exp_Ropp. field. lra. }
  assert (Hclose : operators.is_close
                     (1 / (1 + Rtrigo_def.exp (- x)) + 1 / (1 + Rtrigo_def.exp (- - x))) 1
                   = operators.PyBool true).
  { unfold operators.is_close. rewrite Rltb_true; [reflexivity |].
    rewrite Hsum. replace (1 - 1) with 0 by lra. rewrite Rabs_R0. lra. }
  split; [| split; [| split]].
  - exists (1 / (1 + Rtrigo_def.exp (- x))), (1 / (1 + Rtrigo_def.exp (- - x))).
    split; [apply sigmoid_logistic |].
    split; [apply sigmoid_logistic |].
    split; [| exact Hclose].
    rewrite Hsum. replace (1 - 1) with 0 by lra. rewrite Rabs_R0. lra.
  - unfold sigmoid_symmetry_test.
    rewrite (sigmoid_logistic x), (sigmoid_logistic (- x)). simpl.
    now rewrite Hclose.
  - intros Hx. apply sigmoid_nonneg. lra.
  - apply sigmoid_negative.
Qed.

Lemma sigmoid_symmetry_witness :
  operators.sigmoid 0 = inr (1 / (1 + Rtrigo_def.exp (- 0)))
  /\ operators.sigmoid (-1) = inr (Rtrigo_def.exp (-1) / (1 + Rtrigo_def.exp (-1))).
Proof.
  split.
  - apply (sigmoid_symmetry 0). lra.
  - apply (sigmoid_symmetry (-1)). lra.
Defined.

(** * Further properties of the scalar layer *)

(** ** max, relu and relu_back *)

Lemma Rgtb_true (x y : R) : x > y -> operators.Rgtb x y = true.
Proof. intros H. unfold operators.Rgtb. destruct (Rgt_dec x y); [reflexivity | contradiction]. Qed.

Lemma Rgtb_false (x y : R) : ~ x > y -> operators.Rgtb x y = false.
Proof. intros H. unfold operators.Rgtb. destruct (Rgt_dec x y); [contradiction | reflexivity]. Qed.

Lemma max_Rmax (x y : R) : operators.max x y = Rmax x y.
Proof.
  unfold operators.max, operators.Rgtb, Rmax.
  destruct (Rgt_dec x y), (Rle_dec x y); lra.
Qed.

(** X1: [max(x, y)] is the mathematical maximum: an upper bound of both
    arguments, equal to one of them, and symmetric in its arguments
    although the code returns [y] on a tie. *)
Theorem max_is_maximum (x y : R) :
  operators.max x y = Rmax x y
  /\ x <= operators.max x y
  /\ y <= operators.max x y
  /\ (operators.max x y = x \/ operators.max x y = y)
  /\ operators.max x y = operators.max y x
  /\ (forall z, x <= z -> y <= z -> operators.max x y <= z).
Proof.
  rewrite !max_Rmax.
  split; [reflexivity |].
  split; [apply Rmax_l |].
  split; [apply Rmax_r |].
  split; [unfold Rmax; destruct (Rle_dec x y); auto |].
  split; [apply Rmax_comm |].
  intros z Hx Hy. apply Rmax_lub; assumption.
Qed.

Lemma max_is_maximum_witness : operators.max 3 5 <= 7.
Proof. apply (max_is_maximum 3 5); lra. Defined.

Lemma relu_pos (x : R) : 0 < x -> operators.relu x = x.
Proof. intros H. unfold operators.relu. rewrite max_Rmax. apply Rmax_left. lra. Qed.

Lemma relu_nonpos (x : R) : x <= 0 -> operators.relu x = 0.
Proof. intros H. unfold operators.relu. rewrite max_Rmax. apply Rmax_right. lra. Qed.

(** X2: [relu(x)] is [x] for [x > 0] and 0 for [x <= 0]; it is never
    negative, never below [x], idempotent, and [relu(x) - relu(-x) = x]. *)
Theorem relu_properties (x : R) :
  (0 < x -> operators.relu x = x)
  /\ (x <= 0 -> operators.relu x = 0)
  /\ 0 <= operators.relu x
  /\ x <= operators.relu x
  /\ operators.relu (operators.relu x) = operators.relu x
  /\ operators.relu x - operators.relu (operators.neg x) = x.
Proof.
  split; [apply relu_pos |].
  split; [apply relu_nonpos |].
  unfold operators.neg.
  destruct (Rlt_or_le 0 x) as [P | N].
  - rewrite !(relu_pos x P), (relu_nonpos (- x)) by lra.
    repeat split; lra.
  - rewrite !(relu_nonpos x N), (relu_nonpos 0) by lra.
    destruct (Rle_lt_or_eq_dec _ _ N) as [L | ->].
    + rewrite (relu_pos (- x)) by lra. repeat split; lra.
    + rewrite (relu_nonpos (- 0)) by lra. repeat split; lra.
Qed.

Lemma relu_properties_witness :
  operators.relu 3 = 3 /\ operators.relu (-2) = 0.
Proof.
  split.
  - apply (relu_properties 3). lra.
  - apply (relu_properties (-2)). lra.
Defined.

(** X3: away from 0, [relu_back(x, d)] is [d] times the derivative of
    [relu] at [x]; at 0, where [relu] has no derivative, it returns 0. *)
Theorem relu_back_derivative (x d : R) :
  (x <> 0 -> derivable_pt_lim operators.relu x (operators.relu_back x 1)
             /\ operators.relu_back x d = d * operators.relu_back x 1)
  /\ operators.relu_back 0 d = 0
  /\ ~ (exists l, derivable_pt_lim operators.relu 0 l).
Proof.
  split; [| split].
  - intros Hx. unfold operators.relu_back.
    destruct (Rlt_or_le 0 x) as [P | N].
    + rewrite !(Rgtb_true x 0) by lra. split; [| lra].
      intros eps Heps. exists (mkposreal x P). simpl. intros h Hh Hlt.
      apply Rabs_def2 in Hlt.
      rewrite (relu_pos (x + h)), (relu_pos x) by lra.
      replace ((x + h - x) / h - 1) with 0 by (field; exact Hh).
      rewrite Rabs_R0. exact Heps.
    + rewrite !(Rgtb_false x 0) by lra. split; [| lra].
      assert (P : 0 < - x) by lra.
      intros eps Heps. exists (mkposreal (- x) P). simpl. intros h Hh Hlt.
      apply Rabs_def2 in Hlt.
      rewrite (relu_nonpos (x + h)), (relu_nonpos x) by lra.
      replace ((0 - 0) / h - 0) with 0 by (field; exact Hh).
      rewrite Rabs_R0. exact Heps.
  - unfold operators.relu_back. rewrite Rgtb_false by lra. reflexivity.
  - intros [l Hl].
    destruct (Hl (1 / 2)) as [[delta Hdelta] H]; [lra |]. simpl in H.
    assert (Hp := H (delta / 2)). assert (Hn := H (- (delta / 2))).
    rewrite Rplus_0_l, (relu_nonpos 0), (relu_pos (delta / 2)) in Hp by lra.
    rewrite Rplus_0_l, (relu_nonpos 0), (relu_nonpos (- (delta / 2))) in Hn by lra.
    replace ((delta / 2 - 0) / (delta / 2)) with 1 in Hp by (field; lra).
    replace ((0 - 0) / - (delta / 2)) with 0 in Hn by (field; lra).
    assert (Hd : Rabs (delta / 2) < delta) by (rewrite Rabs_pos_eq; lra).
    assert (Hd' : Rabs (- (delta / 2)) < delta) by (rewrite Rabs_Ropp; exact Hd).
    apply Rabs_def2 in Hp; [| lra | exact Hd].
    apply Rabs_def2 in Hn; [| lra | exact Hd'].
    lra.
Qed.

Lemma relu_back_derivative_witness :
  derivable_pt_lim operators.relu 2 (operators.relu_back 2 1)
  /\ operators.relu_back 2 5 = 5 * operators.relu_back 2 1.
Proof. apply (relu_back_derivative 2 5). lra. Defined.

(** ** Derivatives: inv_back and log_back *)

(** A derivative at [x] only looks at the function near [x]. *)
Lemma derivable_pt_lim_local (f g : R -> R) (x l r : R) :
  0 < r ->
  (forall t, Rabs (t - x) < r -> f t = g t) ->
  derivable_pt_lim g x l -> derivable_pt_lim f x l.
Proof.
  intros Hr Hfg Hg eps Heps.
  destruct (Hg eps Heps) as [delta Hdelta].
  assert (Hm : 0 < Rmin r delta) by (apply Rmin_pos; [exact Hr | apply cond_pos]).
  exists (mkposreal _ Hm). simpl. intros h Hh Hlt.
  rewrite (Hfg (x + h)), (Hfg x).
  - apply Hdelta; [exact Hh |].
    apply Rlt_le_trans with (1 := Hlt), Rmin_r.
  - replace (x - x) with 0 by lra. rewrite Rabs_R0. exact Hr.
  - replace (x + h - x) with h by lra.
    apply Rlt_le_trans with (1 := Hlt), Rmin_l.
Qed.

Lemma returned_inv (t : R) : t <> 0 -> returned (operators.inv t) = 1 / t.
Proof. intros Ht. unfold operators.inv. rewrite truediv_ok by exact Ht. reflexivity. Qed.

Lemma returned_log (t : R) :
  0 < t + operators.EPS -> returned (operators.log t) = ln (t + operators.EPS).
Proof.
  intros Ht. unfold operators.log, operators.math_log.
  destruct (Rlt_dec 0 (t + operators.EPS)); [reflexivity | contradiction].
Qed.

(** X4: for [x <> 0], [inv] is differentiable at [x] with derivative
    [-1/x^2]; when the square of [1/x] is within the range of binary64,
    [inv_back(x, d)] returns that derivative times [d]. *)
Theorem inv_back_derivative (x d : R) :
  x <> 0 ->
  derivable_pt_lim (fun t => returned (operators.inv t)) x (- / (x * x))
  /\ ((1 / x) ^ 2 < operators.float_overflow ->
      operators.inv_back x d = inr (- / (x * x) * d)).
Proof.
  intros Hx. split.
  - assert (Hr : 0 < Rabs x) by (apply Rabs_pos_lt; exact Hx).
    apply (derivable_pt_lim_local _ (fun t => 1 / t) x _ (Rabs x) Hr).
    + intros t Ht. apply returned_inv. intros ->.
      rewrite Rminus_0_l, Rabs_Ropp in Ht. lra.
    + replace (- / (x * x)) with ((0 * id x - 1 * fct_cte 1 x) / Rsqr (id x))
        by (unfold id, fct_cte, Rsqr; field; exact Hx).
      apply (derivable_pt_lim_div (fct_cte 1) id x 0 1).
      * apply derivable_pt_lim_const.
      * apply derivable_pt_lim_id.
      * exact Hx.
  - intros Hr. rewrite (inv_back_in_range x d Hx Hr). f_equal. field. exact Hx.
Qed.

Lemma inv_back_derivative_witness :
  derivable_pt_lim (fun t => returned (operators.inv t)) 2 (- / (2 * 2))
  /\ operators.inv_back 2 3 = inr (- / (2 * 2) * 3).
Proof.
  assert (N : (2 : R) <> 0) by lra.
  destruct (inv_back_derivative 2 3 N) as [Hd Hv].
  split; [exact Hd |].
  apply Hv. pose proof float_overflow_bounds. simpl. lra.
Defined.

(** X5: the derivative of [log] at [x > -EPS] is [1/(x + EPS)]; for
    [x > 0], [log_back(x, d)] is [d] times [1/x], the derivative at [x]
    of the natural logarithm without the [EPS] shift, and the two
    derivatives differ. *)
Theorem log_back_derivative (x d : R) :
  (0 < x + operators.EPS ->
   derivable_pt_lim (fun t => returned (operators.log t)) x (/ (x + operators.EPS)))
  /\ (0 < x ->
      derivable_pt_lim ln x (/ x)
      /\ operators.log_back x d = inr (/ x * d)
      /\ / x <> / (x + operators.EPS)).
Proof.
  pose proof EPS_pos as He. split.
  - intros Hx.
    apply (derivable_pt_lim_local _ (fun t => ln (t + operators.EPS)) x _
                                  (x + operators.EPS) Hx).
    + intros t Ht. apply returned_log. apply Rabs_def2 in Ht. lra.
    + intros eps Heps.
      destruct (derivable_pt_lim_ln (x + operators.EPS) Hx eps Heps) as [delta H].
      exists delta. intros h Hh Hlt.
      replace (x + h + operators.EPS) with (x + operators.EPS + h) by ring.
      apply H; assumption.
  - intros Hx. split; [apply derivable_pt_lim_ln; exact Hx |].
    split.
    + scalar_unfold. rewrite truediv_ok by lra. simpl. f_equal. field. lra.
    + intros H. apply Rinv_eq_reg in H. lra.
Qed.

Lemma log_back_derivative_witness :
  derivable_pt_lim (fun t => returned (operators.log t)) 1 (/ (1 + operators.EPS))
  /\ operators.log_back 1 2 = inr (/ 1 * 2).
Proof.
  split.
  - apply (log_back_derivative 1 2). pose proof EPS_pos. lra.
  - apply (log_back_derivative 1 2). lra.
Defined.

(** ** is_close and the comparisons *)

(** X10: [is_close] is reflexive and symmetric, but it is not
    transitive: 0 is close to 0.009 and 0.009 to 0.018, yet 0 is not
    close to 0.018. *)
Theorem is_close_relation :
  (forall x, operators.is_close x x = operators.PyBool true)
  /\ (forall x y, operators.is_close x y = operators.is_close y x)
  /\ (operators.is_close 0 0.009 = operators.PyBool true
      /\ operators.is_close 0.009 0.018 = operators.PyBool true
      /\ operators.is_close 0 0.018 = operators.PyBool false).
Proof.
  unfold operators.is_close.
  split; [| split].
  - intros x. rewrite Rltb_true; [reflexivity |].
    replace (x - x) with 0 by lra. rewrite Rabs_R0. lra.
  - intros x y. now rewrite Rabs_minus_sym.
  - split; [| split].
    + apply f_equal, Rltb_true. rewrite Rabs_left; lra.
    + apply f_equal, Rltb_true. rewrite Rabs_left; lra.
    + apply f_equal, Rltb_false. rewrite Rabs_left; lra.
Qed.

(** X11: whatever [x] and [y], exactly one of [lt(x, y)], [eq(x, y)] and
    [lt(y, x)] is [True]: read as numbers the three results sum to 1;
    and [max(x, y)] is [y] exactly when [lt(y, x)] is [False]. *)
Theorem lt_eq_trichotomy (x y : R) :
  operators.as_float (operators.lt x y) + operators.as_float (operators.eq x y)
  + operators.as_float (operators.lt y x) = 1
  /\ (operators.lt y x = operators.PyBool false <-> operators.max x y = y)
  /\ operators.eq x y = operators.eq y x.
Proof.
  unfold operators.lt, operators.eq, operators.max, operators.Rgtb,
    operators.Rltb, operators.Reqb.
  destruct (Rlt_dec x y), (Req_dec_T x y), (Rlt_dec y x), (Rgt_dec x y),
    (Req_dec_T y x); simpl; try lra;
    (split; [lra | split; [split; intros; try reflexivity; try discriminate; lra
                          | reflexivity]]).
Qed.

Lemma lt_eq_trichotomy_witness : operators.max 1 2 = 2.
Proof.
  apply (lt_eq_trichotomy 1 2).
  unfold operators.lt. rewrite Rltb_false by lra. reflexivity.
Defined.

(** * Further properties of the combinators *)

(** ** The appending loop with a callback that may raise *)

Section Collect.
Context {X Y : Type}.
Variable g : X -> operators.py Y.

(** The loop shared by [map] and [zipWith]. *)
Let collect (ls : list X) (out : list Y) : operators.py (list Y) :=
  operators.for_in ls (fun out x => v <- g x ;; ret (out ++ [v])) out.

(** The loop returns exactly when the callback returns on every element,
    and then it has appended the values returned, in order. *)
Lemma collect_returns_iff (ls : list X) (out res : list Y) :
  collect ls out = inr res <->
  exists vs, res = out ++ vs /\ Forall2 (fun x v => g x = inr v) ls vs.
Proof.
  unfold collect. revert out res.
  induction ls as [| x tl IH]; intros out res; simpl.
  - split.
    + intros [= <-]. exists []. split; [now rewrite app_nil_r | constructor].
    + intros (vs & -> & HF). inversion HF. now rewrite app_nil_r.
  - destruct (g x) as [e | v] eqn:E; simpl.
    + split; [discriminate |].
      intros (vs & _ & HF). inversion HF; subst. congruence.
    + rewrite IH. split.
      * intros (vs & -> & HF). exists (v :: vs).
        split; [now rewrite <- app_assoc | now constructor].
      * intros (vs & -> & HF). inversion HF as [| ? v' ? vs' Hv HF']; subst.
        assert (v' = v) by congruence. subst v'.
        exists vs'. split; [now rewrite <- app_assoc | exact HF'].
Qed.

(** The loop raises what the callback raises on the first element it
    fails on; the elements after it are not looked at. *)
Lemma collect_first_exception (l1 : list X) (x : X) (l2 : list X)
      (out : list Y) (e : operators.pyexc) :
  (forall y, In y l1 -> exists v, g y = inr v) ->
  g x = inl e ->
  collect (l1 ++ x :: l2) out = inl e.
Proof.
  unfold collect. revert out.
  induction l1 as [| y tl IH]; intros out Hret Hx; simpl.
  - now rewrite Hx.
  - destruct (Hret y (or_introl Logic.eq_refl)) as [v Hv]. rewrite Hv. simpl.
    apply IH; [| exact Hx]. intros z Hz. apply Hret. now right.
Qed.
End Collect.

(** ** map and negList *)

(** X12: for a callback that returns, [map(fn)(ls)] returns a sequence
    of the same length whose element at each position [i] is
    [fn(ls[i])]; past the end of [ls] it has no element. *)
Theorem map_elementwise {A B : Type} (f : A -> B) (ls : list A) :
  exists out : list B,
    operators.map (operators.pure1 f) ls = inr out
    /\ length out = length ls
    /\ (forall i, nth_error out i = option_map f (nth_error ls i)).
Proof.
  exists (List.map f ls).
  split; [apply map_pure |].
  split; [apply length_map |].
  intros i. apply nth_error_map.
Qed.

(** X13: [map(fn)(ls)] returns [out] exactly when [fn] returns [out[i]]
    on [ls[i]] for every [i], and it raises the exception of the first
    element on which [fn] raises. *)
Theorem map_callback_exceptions {A B : Type} (fn : A -> operators.py B) :
  (forall ls out,
      operators.map fn ls = inr out <-> Forall2 (fun x v => fn x = inr v) ls out)
  /\ (forall l1 x l2 e,
         (forall y, In y l1 -> exists v, fn y = inr v) ->
         fn x = inl e ->
         operators.map fn (l1 ++ x :: l2) = inl e).
Proof.
  split.
  - intros ls out. unfold operators.map. rewrite (collect_returns_iff fn).
    split.
    + intros (vs & -> & HF). exact HF.
    + intros HF. exists out. auto.
  - intros l1 x l2 e Hret Hx. unfold operators.map.
    now apply (collect_first_exception fn).
Qed.

Lemma map_callback_exceptions_witness :
  operators.map operators.inv [1; 2; 0; 3] = inl operators.ZeroDivisionError.
Proof.
  apply (proj2 (map_callback_exceptions operators.inv) [1; 2] 0 [3]).
  - intros y [<- | [<- | []]]; eexists; apply truediv_ok; lra.
  - apply truediv_zero.
Defined.

Lemma negList_map (ls : list R) : operators.negList ls = inr (List.map Ropp ls).
Proof. unfold operators.negList. apply (map_pure operators.neg). Qed.

(** X14: [negList(ls)] has the length of [ls] and at each position the
    opposite of the element of [ls]; negating twice returns [ls]. *)
Theorem negList_involutive (ls : list R) :
  (exists out, operators.negList ls = inr out
               /\ length out = length ls
               /\ forall i x, nth_error ls i = Some x -> nth_error out i = Some (- x))
  /\ (n <- operators.negList ls ;; operators.negList n) = inr ls.
Proof.
  split.
  - exists (List.map Ropp ls).
    split; [apply negList_map |].
    split; [apply length_map |].
    intros i x Hx. now rewrite nth_error_map, Hx.
  - rewrite negList_map. simpl. rewrite negList_map. f_equal.
    rewrite map_map. rewrite <- (map_id ls) at 2.
    apply map_ext. intros x. apply Ropp_involutive.
Qed.

Lemma negList_involutive_witness :
  exists out, operators.negList [1; -2] = inr out /\ nth_error out 1 = Some (- -2).
Proof.
  destruct (negList_involutive [1; -2]) as [(out & Hout & _ & Hnth) _].
  exists out. split; [exact Hout |].
  apply (Hnth 1%nat). reflexivity.
Defined.

(** ** zipWith and addLists with any callback *)

Lemma zip_firstn {A B : Type} (a : list A) (b : list B) :
  operators.zip a b
  = operators.zip (firstn (Nat.min (length a) (length b)) a)
                  (firstn (Nat.min (length a) (length b)) b).
Proof.
  revert b; induction a as [| x ta IH]; intros [| y tb]; simpl; try reflexivity.
  now rewrite <- IH.
Qed.

Lemma zip_app {A B : Type} (a1 a2 : list A) (b1 b2 : list B) :
  length a1 = length b1 ->
  operators.zip (a1 ++ a2) (b1 ++ b2) = operators.zip a1 b1 ++ operators.zip a2 b2.
Proof.
  revert b1; induction a1 as [| x ta IH]; intros [| y tb]; simpl;
    try discriminate; [reflexivity |].
  intros [= H]. now rewrite IH.
Qed.

(** X15: whatever the callback does, [zipWith(fn)(a, b)] only depends on
    the first [min(len(a), len(b))] elements of each sequence: the
    elements past the end of the shorter one are never passed to [fn].
    With an empty sequence on either side it returns the empty sequence
    without calling [fn]. *)
Theorem zipWith_common_prefix {A B C : Type}
        (fn : A -> B -> operators.py C) (a : list A) (b : list B) :
  operators.zipWith fn a b
  = operators.zipWith fn (firstn (Nat.min (length a) (length b)) a)
                         (firstn (Nat.min (length a) (length b)) b)
  /\ operators.zipWith fn [] b = inr []
  /\ operators.zipWith fn a [] = inr [].
Proof.
  split; [| split].
  - unfold operators.zipWith. now rewrite <- zip_firstn.
  - reflexivity.
  - unfold operators.zipWith. destruct a; reflexivity.
Qed.

(** X16: [zipWith(fn)(a, b)] raises the exception of the first pair on
    which [fn] raises: if [fn] returns on the pairs before position
    [len(a1)] and raises [e] on the pair at that position, the call
    raises [e], whatever follows. *)
Theorem zipWith_first_exception {A B C : Type} (fn : A -> B -> operators.py C)
        (a1 : list A) (x : A) (a2 : list A) (b1 : list B) (y : B) (b2 : list B)
        (e : operators.pyexc) :
  length a1 = length b1 ->
  (forall u v, In (u, v) (operators.zip a1 b1) -> exists w, fn u v = inr w) ->
  fn x y = inl e ->
  operators.zipWith fn (a1 ++ x :: a2) (b1 ++ y :: b2) = inl e.
Proof.
  intros Hlen Hret Hx. unfold operators.zipWith.
  rewrite (zip_app a1 (x :: a2) b1 (y :: b2) Hlen). simpl.
  apply (collect_first_exception (fun xy => fn (fst xy) (snd xy))).
  - intros [u v] Hin. simpl. now apply Hret.
  - exact Hx.
Qed.

Lemma zipWith_first_exception_witness :
  operators.zipWith operators.truediv [1; 2; 3] [4; 0; 5]
  = inl operators.ZeroDivisionError.
Proof.
  apply (zipWith_first_exception operators.truediv [1] 2 [3] [4] 0 [5]).
  - reflexivity.
  - intros u v [[= <- <-] | []]. eexists. apply truediv_ok. lra.
  - apply truediv_zero.
Defined.

Lemma addLists_map (a b : list R) :
  operators.addLists a b
  = inr (List.map (fun xy => fst xy + snd xy) (operators.zip a b)).
Proof. unfold operators.addLists. apply (zipWith_pure operators.add). Qed.

Lemma zip_swap {A B : Type} (a : list A) (b : list B) :
  operators.zip b a = List.map (fun xy => (snd xy, fst xy)) (operators.zip a b).
Proof.
  revert b; induction a as [| x ta IH]; intros [| y tb]; simpl; try reflexivity.
  now rewrite IH.
Qed.

(** X17: [addLists] is commutative, the sequence of zeros is neutral
    for it, and adding to a sequence its [negList] returns zeros. *)
Theorem addLists_group (a b : list R) :
  operators.addLists a b = operators.addLists b a
  /\ operators.addLists a (repeat 0 (length a)) = inr a
  /\ (n <- operators.negList a ;; operators.addLists a n)
     = inr (repeat 0 (length a)).
Proof.
  split; [| split].
  - rewrite !addLists_map, (zip_swap a b), map_map. f_equal.
    apply map_ext. intros [x y]. simpl. lra.
  - rewrite addLists_map. f_equal.
    induction a as [| x ta IH]; simpl; [reflexivity |].
    rewrite IH. f_equal. lra.
  - rewrite negList_map. simpl. rewrite addLists_map. f_equal.
    induction a as [| x ta IH]; simpl; [reflexivity |].
    rewrite IH. f_equal. lra.
Qed.

(** ** reduce with any callback *)

(** X18: reducing a concatenation is reducing the second part from the
    value the first part reduced to; and [reduce] raises the exception
    of the first call of [fn] that raises, without looking at the
    elements after it. *)
Theorem reduce_concat {A B : Type} (fn : A -> B -> operators.py B)
        (start : B) (l1 l2 : list A) :
  operators.reduce fn start (l1 ++ l2)
  = (m <- operators.reduce fn start l1 ;; operators.reduce fn m l2)
  /\ (forall x acc e,
         operators.reduce fn start l1 = inr acc -> fn x acc = inl e ->
         operators.reduce fn start (l1 ++ x :: l2) = inl e).
Proof.
  unfold operators.reduce. split.
  - rewrite for_in_app.
    destruct (operators.for_in l1 _ start); reflexivity.
  - intros x acc e Hacc Hx.
    apply (for_in_raise _ l1 x l2 start acc e Hacc Hx).
Qed.

Lemma reduce_concat_witness :
  operators.reduce (fun w acc => operators.truediv acc w) 1 ([2] ++ 0 :: [3])
  = inl operators.ZeroDivisionError.
Proof.
  apply (proj2 (reduce_concat (fun w acc => operators.truediv acc w) 1 [2] [3])
               0 (1 / 2)).
  - unfold operators.reduce. simpl. rewrite truediv_ok by lra. reflexivity.
  - apply truediv_zero.
Defined.

(** ** sum *)

(** X20: the sum of [negList(a)] is the opposite of the sum of [a]. *)
Theorem sum_negList (a : list R) :
  (n <- operators.negList a ;; operators.sum n)
  = (x <- operators.sum a ;; ret (- x)).
Proof.
  rewrite negList_map. simpl. rewrite !sum_fold_right. simpl.
  f_equal. induction a as [| x ta IH]; simpl; [lra | rewrite IH; lra].
Qed.
